(** * Factory: a shallow embedding of Factory.h and AbstractFactory.h

    The library keeps, for every interface, one table from type identifiers
    to object creation functions ([Factory<Interface>::produceFunctions]).
    [AddProduction<Interfase, Production>] writes one entry of that table
    when it is constructed, [Factory<Interface>::createObject] reads the
    table and calls the function it finds, and
    [AbstractFactory::createObject<Interface>] forwards to the latter.

    The embedding follows the non-variadic branch of the headers (the macro
    [FACTORY_USE_VARIADIC_TEMPLATES] is commented out in Factory.h). *)

From stdpp Require Import base option gmap strings list fin_maps infinite.

(** ** Data *)

(** [#define StringType QString] (or [std::string]). *)
Abbreviation StringType := string (only parsing).

(** An interface is a template argument.  Its only run-time trace is
    [typeid (Interfase).name ()], so an interface is identified with that
    name. *)
Abbreviation Interface := string (only parsing).

(** A value of type [decltype (&Interface::createObject)]: a pointer to a
    function without arguments.  [nullfn] is the value-initialised pointer,
    which is what the indexing operator of the dictionary stores under a key
    it did not hold; [fn a] is the address of a function of the program. *)
Inductive FnPtr : Type :=
| nullfn
| fn (a : positive).

#[global] Instance FnPtr_eq_dec : EqDecision FnPtr.
Proof. solve_decision. Defined.

(** [#define DictType QHash] (or [std::map]): a dictionary with unique
    keys. *)
Abbreviation DictType K V := (gmap K V) (only parsing).

(** [std::shared_ptr< Interface >]: [nullptr] or the address of an object. *)
Abbreviation shared_ptr := (option positive) (only parsing).
Abbreviation nullptr := (@None positive) (only parsing).

(** The object store: each allocated address holds an object, of which the
    model keeps its class. *)
Abbreviation Heap := (gmap positive string) (only parsing).

(** One line of [warningOutput]: the items streamed by one statement. *)
Abbreviation Message := (list string) (only parsing).

(** The state of the process.  [statics] holds the function-local static
    [_produce_functions] of every instantiation [Factory< Interface >]; an
    interface without an entry is one whose static was not populated yet,
    and reads as the empty dictionary (see [Factory.produceFunctions]). *)
Record World : Type := mkWorld {
  statics : gmap string (gmap string FnPtr);
  heap : gmap positive string;
  warningOutput : list (list string)
}.

Definition set_statics (s : gmap string (gmap string FnPtr)) (w : World) : World :=
  {| statics := s; heap := heap w; warningOutput := warningOutput w |}.

Definition set_heap (h : gmap positive string) (w : World) : World :=
  {| statics := statics w; heap := h; warningOutput := warningOutput w |}.

Definition emit (m : list string) (w : World) : World :=
  {| statics := statics w; heap := heap w;
     warningOutput := warningOutput w ++ [m] |}.

Definition initial : World :=
  {| statics := ∅; heap := ∅; warningOutput := [] |}.

(** ** Computations

    A statement either runs to completion, with a value and a new state, or
    stops the process ([Q_ASSERT] / [assert] failing, or a call through a
    null function pointer). *)
Inductive Outcome (A : Type) : Type :=
| Done (a : A) (w : World)
| Aborted.
Arguments Done {A} a w.
Arguments Aborted {A}.

Definition Run (A : Type) : Type := World → Outcome A.

#[global] Instance Run_ret : MRet Run := λ A a w, Done a w.

#[global] Instance Run_bind : MBind Run := λ A B k c w,
  match c w with
  | Done a w' => k a w'
  | Aborted => Aborted
  end.

Definition abort {A : Type} : Run A := λ _, Aborted.

(** ** The code of the program

    Function bodies live outside the headers: [text a] is the body of the
    function at address [a], and [returns a] is the interface [I] of its
    return type [std::shared_ptr< I >].  A creation function allocates and
    initialises objects; it is run on the object store only, so it neither
    registers classes nor writes diagnostics. *)
Class Program : Type := {
  text : positive → gmap positive string → option positive * gmap positive string;
  returns : positive → string
}.

(** [f ()] for a function pointer [f]. *)
Definition call `{Program} (f : FnPtr) : Run (option positive) := λ w,
  match f with
  | nullfn => Aborted
  | fn a => let '(r, h) := text a (heap w) in Done r (set_heap h w)
  end.

(** [FACTORY_PRODUCTION_CREATE_OBJECT(INTERFACE, PRODUCTION)]:
    [return std::shared_ptr< INTERFACE > (new PRODUCTION);] *)
Definition FACTORY_PRODUCTION_CREATE_OBJECT (PRODUCTION : string)
    (h : gmap positive string) : option positive * gmap positive string :=
  let p := fresh (dom h) in (Some p, <[p := PRODUCTION]> h).

(** An integer used as a condition: [if (n)], [assert (n)]. *)
Definition nonzero (n : nat) : bool := negb (Nat.eqb n 0).

(** [warningOutput << a << b << ...;] *)
Definition warn (m : list string) : Run unit := λ w, Done () (emit m w).

(** [factoryAssert (cond)]: [Q_ASSERT] / [assert].  With assertions
    compiled out the condition is not evaluated. *)
Definition factoryAssert (strict : bool) (cond : Run bool) : Run unit :=
  if strict then b ← cond; if b : bool then mret () else abort
  else mret ().

(** What the classes of the program must provide (class [IProducible]). *)
Module IProducible.
Record Production : Type := mkProduction {
  (** [static StringType typeId ()] *)
  typeId : string;
  (** the address of [static std::shared_ptr< T > createObject ()] *)
  createObject : positive;
  (** [typeid (Production).name ()] *)
  name : string
}.
End IProducible.
Abbreviation Production := IProducible.Production.

(** ** [template< class Interface > class Factory] *)
Module Factory.

(** [produceFunctions ()]: the dictionary behind the reference. *)
Definition produceFunctions (I : Interface) (w : World) : gmap string FnPtr :=
  default ∅ (statics w !! I).

(** A write through the reference [produceFunctions ()]. *)
Definition update (I : Interface) (d : gmap string FnPtr) (w : World) : World :=
  set_statics (<[I := d]> (statics w)) w.

(** [produceFunctions ().count (key)] *)
Definition count (I : Interface) (key : StringType) : Run nat := λ w,
  Done (if produceFunctions I w !! key is Some _ then 1 else 0) w.

(** [produceFunctions () [key]] as an rvalue: the non-const indexing
    operator, which stores a value-initialised entry under a key the
    dictionary does not hold. *)
Definition index (I : Interface) (key : StringType) : Run FnPtr := λ w,
  match produceFunctions I w !! key with
  | Some f => Done f w
  | None => Done nullfn (update I (<[key := nullfn]> (produceFunctions I w)) w)
  end.

(** [produceFunctions () [key] = value] *)
Definition assign (I : Interface) (key : StringType) (value : FnPtr) : Run unit :=
  λ w, Done () (update I (<[key := value]> (produceFunctions I w)) w).

Definition createObject `{Program} (I : Interface) (i_type_id : StringType)
    : Run (option positive) :=
  let object := nullptr in
  c ← count I i_type_id;
  object ← (if nonzero c
            then f ← index I i_type_id; call f
            else mret object);
  mret object.

End Factory.

(** ** [template< class Interfase, class Production > class AddProduction] *)
Module AddProduction.

Definition second_registration (Interfase : Interface) (P : Production)
    : list string :=
  [ "Second registration of class with id "; IProducible.typeId P;
    "in factory "; Interfase;
    "while geristering class "; IProducible.name P ].

Definition repeated_same_class : list string :=
  [ "Repeated registration of the same class" ].

Definition another_class : list string :=
  [ "Registration of another class with dublicate id" ].

(** The constructor.  [strict] tells whether assertions are compiled in. *)
Definition AddProduction (strict : bool) (Interfase : Interface)
    (P : Production) : Run unit :=
  factoryAssert strict
    (c ← Factory.count Interfase (IProducible.typeId P);
     mret (nonzero c));;
  c ← Factory.count Interfase (IProducible.typeId P);
  (if nonzero c
   then
     warn (second_registration Interfase P);;
     f ← Factory.index Interfase (IProducible.typeId P);
     if decide (f = fn (IProducible.createObject P))
     then warn repeated_same_class
     else warn another_class
   else mret ());;
  Factory.assign Interfase (IProducible.typeId P)
    (fn (IProducible.createObject P)).

End AddProduction.

(** ** [class AbstractFactory] *)
Module AbstractFactory.

Definition createObject `{Program} (I : Interface) (i_type_id : string)
    : Run (option positive) :=
  Factory.createObject I i_type_id.

End AbstractFactory.

(** ** Typing of the tables

    [Factory< I >::produceFunctions ()] has value type
    [decltype (&I::createObject)], so the assignment at the end of the
    constructor of [AddProduction< I, P >] only compiles when
    [P::createObject] returns [std::shared_ptr< I >]. *)
Definition constructs `{Program} (P : Production) (I : Interface) : Prop :=
  returns (IProducible.createObject P) = I.

Definition entry_typed `{Program} (I : Interface) (f : FnPtr) : Prop :=
  match f with
  | nullfn => False
  | fn a => returns a = I
  end.

#[global] Instance entry_typed_dec `{Program} I f : Decision (entry_typed I f).
Proof. destruct f; simpl; apply _. Defined.

Definition well_typed `{Program} (w : World) : Prop :=
  map_Forall (λ I d, map_Forall (λ _ f, entry_typed I f) d) (statics w).

(** ** A program with two interfaces

    The scenario of the documentation: classes [Circle] and [Square]
    implement [Shape], class [Button] implements [Widget]; each defines its
    [createObject] with [FACTORY_PRODUCTION_CREATE_OBJECT]. *)
Module Shapes.

Definition Circle : Production :=
  {| IProducible.typeId := "circle"; IProducible.createObject := 1;
     IProducible.name := "Circle" |}.

Definition Square : Production :=
  {| IProducible.typeId := "square"; IProducible.createObject := 2;
     IProducible.name := "Square" |}.

Definition Button : Production :=
  {| IProducible.typeId := "button"; IProducible.createObject := 3;
     IProducible.name := "Button" |}.

(** A second class that picked the identifier of [Circle]. *)
Definition Disc : Production :=
  {| IProducible.typeId := "circle"; IProducible.createObject := 4;
     IProducible.name := "Disc" |}.

#[global] Instance program : Program := {|
  text a :=
    match a with
    | 1 => FACTORY_PRODUCTION_CREATE_OBJECT "Circle"
    | 2 => FACTORY_PRODUCTION_CREATE_OBJECT "Square"
    | 3 => FACTORY_PRODUCTION_CREATE_OBJECT "Button"
    | _ => FACTORY_PRODUCTION_CREATE_OBJECT "Disc"
    end%positive;
  returns a :=
    match a with
    | 3 => "Widget"
    | _ => "Shape"
    end%positive
|}.

(** The state once [AddProduction< Shape, Circle >] and
    [AddProduction< Shape, Square >] have run. *)
Definition registered : World :=
  {| statics := {[ "Shape" := {[ "circle" := fn 1; "square" := fn 2 ]} ]};
     heap := ∅;
     warningOutput := [] |}.

End Shapes.

(** ** What a registration leaves behind *)

(** The diagnostic that ends a duplicate registration, chosen by comparing
    the stored pointer with [Production::createObject]. *)
Definition verdict (f : FnPtr) (P : Production) : list string :=
  if decide (f = fn (IProducible.createObject P))
  then AddProduction.repeated_same_class
  else AddProduction.another_class.

(** The entry the constructor of [AddProduction< I, P >] leaves behind. *)
Definition registration (I : string) (P : Production) (w : World)
    : gmap string FnPtr :=
  <[IProducible.typeId P := fn (IProducible.createObject P)]>
    (Factory.produceFunctions I w).

(** ** Static initialisation

    A class is registered by a namespace-scope variable of type
    [AddProduction< Interfase, Production >] (Factory.h, usage step 4).  These
    variables are constructed one after another before [main] runs, in an
    order the implementation picks; a declaration is the pair of template
    arguments, and the list gives them in the order of construction. *)
Fixpoint static_initialization (strict : bool)
    (decls : list (string * Production)) : Run unit :=
  match decls with
  | [] => mret ()
  | d :: rest =>
      AddProduction.AddProduction strict d.1 d.2;;
      static_initialization strict rest
  end.

(** The table entry a declaration writes: which factory, which identifier. *)
Definition decl_key (d : string * Production) : string * string :=
  (d.1, IProducible.typeId d.2).

(** The tables as values: what [Factory.produceFunctions] reads, and what
    the assignment closing the constructor of [AddProduction] writes. *)
Definition table (I : string) (s : gmap string (gmap string FnPtr))
    : gmap string FnPtr :=
  default ∅ (s !! I).

Definition record_decl (d : string * Production)
    (s : gmap string (gmap string FnPtr)) : gmap string (gmap string FnPtr) :=
  <[d.1 := <[IProducible.typeId d.2 := fn (IProducible.createObject d.2)]>
             (table d.1 s)]> s.

Definition register_all (decls : list (string * Production))
    (s : gmap string (gmap string FnPtr)) : gmap string (gmap string FnPtr) :=
  foldl (λ s d, record_decl d s) s decls.

(** * Properties *)

(** ** Running the pieces *)

Ltac step := cbn -[Factory.produceFunctions Factory.update].

Ltac run :=
  unfold AddProduction.AddProduction, AbstractFactory.createObject,
    Factory.createObject, factoryAssert, Factory.assign, Factory.index,
    Factory.count, warn, abort, call, mbind, Run_bind, mret, Run_ret;
  step.

Section Runs.
Context `{Program}.

Lemma createObject_hit (I : string) (id : string) (w : World) (f : FnPtr) :
  Factory.produceFunctions I w !! id = Some f →
  Factory.createObject I id w = call f w.
Proof.
  intros Hf. run. rewrite Hf. step. rewrite Hf.
  destruct f as [|a]; [done|]. by destruct (text a (heap w)).
Qed.

Lemma createObject_miss (I : string) (id : string) (w : World) :
  Factory.produceFunctions I w !! id = None →
  Factory.createObject I id w = Done None w.
Proof. intros Hf. run. by rewrite Hf. Qed.

End Runs.

(** Reading back what was written through the reference. *)
Lemma produceFunctions_update (I : string) (d : gmap string FnPtr) (w : World) :
  Factory.produceFunctions I (Factory.update I d w) = d.
Proof.
  unfold Factory.produceFunctions, Factory.update. cbn.
  by rewrite lookup_insert_eq.
Qed.

(** Diagnostics and allocations leave the tables alone. *)
Lemma produceFunctions_emit (I : string) (m : list string) (w : World) :
  Factory.produceFunctions I (emit m w) = Factory.produceFunctions I w.
Proof. reflexivity. Qed.

Lemma produceFunctions_set_heap (I : string) (h : gmap positive string)
    (w : World) :
  Factory.produceFunctions I (set_heap h w) = Factory.produceFunctions I w.
Proof. reflexivity. Qed.

Lemma AddProduction_duplicate (strict : bool) (I : string) (P : Production)
    (w : World) (f : FnPtr) :
  Factory.produceFunctions I w !! IProducible.typeId P = Some f →
  AddProduction.AddProduction strict I P w =
    Done () (Factory.update I (registration I P w)
               (emit (verdict f P)
                  (emit (AddProduction.second_registration I P) w))).
Proof.
  intros Hf. unfold verdict, registration.
  destruct strict; run;
    repeat first [rewrite produceFunctions_emit | rewrite Hf | progress step];
    destruct (decide (f = fn (IProducible.createObject P))); step;
    by rewrite ?produceFunctions_emit.
Qed.

Lemma AddProduction_first (I : string) (P : Production) (w : World) :
  Factory.produceFunctions I w !! IProducible.typeId P = None →
  AddProduction.AddProduction false I P w =
    Done () (Factory.update I (registration I P w) w).
Proof. intros Hf. run. by rewrite Hf. Qed.

Lemma AddProduction_first_strict (I : string) (P : Production) (w : World) :
  Factory.produceFunctions I w !! IProducible.typeId P = None →
  AddProduction.AddProduction true I P w = Aborted.
Proof. intros Hf. run. by rewrite Hf. Qed.

(** Without assertions the constructor always runs to completion. *)
Lemma AddProduction_total (I : string) (P : Production) (w : World) :
  ∃ w', AddProduction.AddProduction false I P w = Done () w'.
Proof.
  destruct (Factory.produceFunctions I w !! IProducible.typeId P) as [f|] eqn:Hf.
  - eexists. by apply AddProduction_duplicate.
  - eexists. by apply AddProduction_first.
Qed.

(** Whenever the constructor completes, the tables are the old ones with
    the one new entry, and the object store is the old one. *)
Lemma AddProduction_done (strict : bool) (I : string) (P : Production)
    (w w' : World) :
  AddProduction.AddProduction strict I P w = Done () w' →
  statics w' = <[I := registration I P w]> (statics w) ∧ heap w' = heap w.
Proof.
  destruct (Factory.produceFunctions I w !! IProducible.typeId P) as [f|] eqn:Hf.
  - rewrite (AddProduction_duplicate _ _ _ _ _ Hf). by intros [= <-].
  - destruct strict.
    + by rewrite AddProduction_first_strict.
    + rewrite AddProduction_first by done. by intros [= <-].
Qed.

Lemma produceFunctions_done_same (strict : bool) (I : string) (P : Production)
    (w w' : World) :
  AddProduction.AddProduction strict I P w = Done () w' →
  Factory.produceFunctions I w' = registration I P w.
Proof.
  intros [Hs _]%AddProduction_done. unfold Factory.produceFunctions at 1.
  by rewrite Hs, lookup_insert_eq.
Qed.

Lemma produceFunctions_done_other (strict : bool) (I J : string)
    (P : Production) (w w' : World) :
  I ≠ J →
  AddProduction.AddProduction strict I P w = Done () w' →
  Factory.produceFunctions J w' = Factory.produceFunctions J w.
Proof.
  intros HIJ [Hs _]%AddProduction_done. unfold Factory.produceFunctions.
  by rewrite Hs, lookup_insert_ne.
Qed.

(** ** [Factory< Interface >::createObject] *)

Section Lookup.
Context `{Program}.

(** C1: when the table of [Factory< I >] maps [id] to a creation function,
    [createObject (id)] completes with exactly what that function returns,
    run on the current object store; for a function written with
    [FACTORY_PRODUCTION_CREATE_OBJECT] this is a pointer to a new object of
    the production class, at an address that was free before the call. *)
Theorem createObject_registered (I id : string) (w : World) (a : positive) :
  Factory.produceFunctions I w !! id = Some (fn a) →
  Factory.createObject I id w =
    Done (text a (heap w)).1 (set_heap (text a (heap w)).2 w)
  ∧ ∀ PRODUCTION : string,
      text a = FACTORY_PRODUCTION_CREATE_OBJECT PRODUCTION →
      ∃ p : positive,
        (text a (heap w)).1 = Some p
        ∧ heap w !! p = None
        ∧ (text a (heap w)).2 = <[p := PRODUCTION]> (heap w).
Proof.
  intros Hf. split.
  - rewrite (createObject_hit _ _ _ _ Hf). unfold call.
    by destruct (text a (heap w)).
  - intros PRODUCTION ->. exists (fresh (dom (heap w))).
    split_and!; [done| |done].
    apply not_elem_of_dom, is_fresh.
Qed.

(** C2: for an identifier the table of [Factory< I >] does not hold,
    [createObject (id)] completes, returns the null pointer, and leaves the
    whole state, object store included, as it was: no object is made. *)
Theorem createObject_unregistered (I id : string) (w : World) :
  Factory.produceFunctions I w !! id = None →
  Factory.createObject I id w = Done None w.
Proof. apply createObject_miss. Qed.

(** C9: a call of [createObject (id)] that completes leaves every table as
    it was, whether [id] is registered or not, and the call does complete
    unless the table holds a null pointer under [id]. *)
Theorem createObject_frame (I id : string) (w : World) :
  (∀ (r : option positive) (w' : World),
     Factory.createObject I id w = Done r w' → statics w' = statics w)
  ∧ (Factory.produceFunctions I w !! id ≠ Some nullfn →
     ∃ (r : option positive) (w' : World),
       Factory.createObject I id w = Done r w').
Proof.
  destruct (Factory.produceFunctions I w !! id) as [f|] eqn:Hf.
  - rewrite (createObject_hit _ _ _ _ Hf). unfold call.
    destruct f as [|a]; [by split|].
    destruct (text a (heap w)) as [r h]. split; [|by eauto].
    by intros ? ? [= _ <-].
  - rewrite (createObject_miss _ _ _ Hf). split; [|by eauto].
    by intros ? ? [= _ <-].
Qed.

(** C5: [AbstractFactory::createObject< I > (id)] is
    [Factory< I >::createObject (id)]: run from any state, the two give the
    same outcome, result and final state alike. *)
Theorem AbstractFactory_createObject_delegates (I id : string) (w : World) :
  AbstractFactory.createObject I id w = Factory.createObject I id w.
Proof.
  unfold AbstractFactory.createObject.
  destruct (Factory.createObject I id w); reflexivity.
Qed.

End Lookup.

(** ** The constructor of [AddProduction< Interfase, Production >] *)

Lemma AddProduction_strict_aborts_iff (I : string) (P : Production) (w : World) :
  AddProduction.AddProduction true I P w = Aborted
  ↔ Factory.produceFunctions I w !! IProducible.typeId P = None.
Proof.
  split.
  - destruct (Factory.produceFunctions I w !! IProducible.typeId P)
      as [f|] eqn:Hf; [|done].
    by rewrite (AddProduction_duplicate _ _ _ _ _ Hf).
  - apply AddProduction_first_strict.
Qed.

Lemma well_typed_produceFunctions `{Program} (I : string) (w : World) :
  well_typed w →
  map_Forall (λ _ f, entry_typed I f) (Factory.produceFunctions I w).
Proof.
  intros Hw. unfold Factory.produceFunctions.
  destruct (statics w !! I) as [d|] eqn:Hd; simpl.
  - exact (map_Forall_lookup_1 _ _ _ _ Hw Hd).
  - apply map_Forall_empty.
Qed.

Section Registration.
Context `{Program}.

(** C3: when [Production::typeId ()] is already in the table of
    [Factory< I >], the constructor of [AddProduction< I, Production >],
    built without assertions, completes; it writes the two lines of the
    duplicate diagnostic; the table then maps the identifier to
    [Production::createObject], and a later [createObject] with that
    identifier calls this function. *)
Theorem duplicate_reported_and_overwritten (I : string) (P : Production)
    (w : World) (f : FnPtr) :
  Factory.produceFunctions I w !! IProducible.typeId P = Some f →
  ∃ w' : World,
    AddProduction.AddProduction false I P w = Done () w'
    ∧ warningOutput w' =
        warningOutput w ++ [AddProduction.second_registration I P; verdict f P]
    ∧ Factory.produceFunctions I w' !! IProducible.typeId P =
        Some (fn (IProducible.createObject P))
    ∧ Factory.createObject I (IProducible.typeId P) w' =
        call (fn (IProducible.createObject P)) w'.
Proof.
  intros Hf. eexists. split; [by apply AddProduction_duplicate|].
  assert (Factory.produceFunctions I
            (Factory.update I (registration I P w)
               (emit (verdict f P)
                  (emit (AddProduction.second_registration I P) w)))
          !! IProducible.typeId P = Some (fn (IProducible.createObject P)))
    as Hnew.
  { rewrite produceFunctions_update. apply lookup_insert_eq. }
  split_and!.
  - cbn. by rewrite <- app_assoc.
  - done.
  - by apply createObject_hit.
Qed.

(** C8: on a duplicate registration the second line of the diagnostic is
    chosen by comparing the stored function pointer with
    [Production::createObject]: equal pointers give "Repeated registration of
    the same class", different ones "Registration of another class with
    dublicate id". *)
Theorem duplicate_diagnostic_by_identity (strict : bool) (I : string)
    (P : Production) (w : World) (f : FnPtr) :
  Factory.produceFunctions I w !! IProducible.typeId P = Some f →
  ∃ w' : World,
    AddProduction.AddProduction strict I P w = Done () w'
    ∧ (f = fn (IProducible.createObject P) →
       warningOutput w' =
         warningOutput w ++ [AddProduction.second_registration I P;
                             AddProduction.repeated_same_class])
    ∧ (f ≠ fn (IProducible.createObject P) →
       warningOutput w' =
         warningOutput w ++ [AddProduction.second_registration I P;
                             AddProduction.another_class]).
Proof.
  intros Hf. eexists. split; [by apply AddProduction_duplicate|].
  cbn. rewrite <- app_assoc. unfold verdict.
  by destruct (decide (f = fn (IProducible.createObject P))).
Qed.

(** C6: for two different interfaces [I1] and [I2], the constructor of
    [AddProduction< I1, P >] leaves the table of [Factory< I2 >] as it was;
    an identifier of [P] that [Factory< I2 >] did not hold is still answered
    with the null pointer; and, every table holding only functions that
    return its own interface before, the same is true afterwards. *)
Theorem other_interface_untouched (strict : bool) (I1 I2 : string)
    (P : Production) (w w' : World) :
  I1 ≠ I2 →
  AddProduction.AddProduction strict I1 P w = Done () w' →
  Factory.produceFunctions I2 w' = Factory.produceFunctions I2 w
  ∧ (Factory.produceFunctions I2 w !! IProducible.typeId P = None →
     Factory.createObject I2 (IProducible.typeId P) w' = Done None w')
  ∧ (constructs P I1 → well_typed w → well_typed w').
Proof.
  intros Hne Hrun.
  pose proof (produceFunctions_done_other _ _ _ _ _ _ Hne Hrun) as Hsame.
  split_and!.
  - done.
  - intros Hmiss. apply createObject_miss. by rewrite Hsame.
  - intros HP Hw. destruct (AddProduction_done _ _ _ _ _ Hrun) as [Hs _].
    unfold well_typed. rewrite Hs. apply map_Forall_insert_2; [|done].
    unfold registration. apply map_Forall_insert_2; [exact HP|].
    by apply well_typed_produceFunctions.
Qed.

(** C7: once [AddProduction< I, P1 >] and then [AddProduction< I, P2 >] have
    been constructed, for different identifiers, [createObject] with the
    identifier of [P1] calls [P1::createObject] and with the identifier of
    [P2] calls [P2::createObject]. *)
Theorem register_two_lookup_both (strict : bool) (I : string)
    (P1 P2 : Production) (w w1 w2 : World) :
  IProducible.typeId P1 ≠ IProducible.typeId P2 →
  AddProduction.AddProduction strict I P1 w = Done () w1 →
  AddProduction.AddProduction strict I P2 w1 = Done () w2 →
  Factory.createObject I (IProducible.typeId P1) w2 =
    call (fn (IProducible.createObject P1)) w2
  ∧ Factory.createObject I (IProducible.typeId P2) w2 =
    call (fn (IProducible.createObject P2)) w2.
Proof.
  intros Hne H1%produceFunctions_done_same H2%produceFunctions_done_same.
  split; apply createObject_hit; rewrite H2; unfold registration.
  - rewrite lookup_insert_ne by done. rewrite H1. apply lookup_insert_eq.
  - apply lookup_insert_eq.
Qed.

End Registration.

(** C10: built without assertions the constructor of
    [AddProduction< I, P >] always completes, and whenever it completes the
    table of [Factory< I >] answers every identifier other than
    [P::typeId ()] as before. *)
Theorem only_own_key_modified (I : string) (P : Production) (w : World) :
  (∃ w' : World, AddProduction.AddProduction false I P w = Done () w')
  ∧ ∀ (strict : bool) (w' : World),
      AddProduction.AddProduction strict I P w = Done () w' →
      ∀ id : string,
        id ≠ IProducible.typeId P →
        Factory.produceFunctions I w' !! id = Factory.produceFunctions I w !! id.
Proof.
  split; [apply AddProduction_total|].
  intros strict w' Hrun%produceFunctions_done_same id Hid.
  rewrite Hrun. unfold registration. by rewrite lookup_insert_ne.
Qed.

(** C4: with assertions compiled in, registering [Circle] in the still
    empty [Factory< Shape >] stops the process, while registering it again
    where "circle" is already present passes the assertion. *)
Theorem strict_first_registration_aborts :
  AddProduction.AddProduction true "Shape" Shapes.Circle initial = Aborted
  ∧ ∃ w' : World,
      AddProduction.AddProduction true "Shape" Shapes.Circle Shapes.registered
      = Done () w'.
Proof.
  split.
  - by apply AddProduction_strict_aborts_iff.
  - eexists. by apply (AddProduction_duplicate true _ _ _ (fn 1)).
Qed.

(** ** Tables never hold a null pointer

    The tables start empty and are only written by the constructor of
    [AddProduction], so the side conditions of C1 and C9 hold in every state
    a program can reach. *)

Lemma well_typed_initial `{Program} : well_typed initial.
Proof. apply map_Forall_empty. Qed.

Lemma well_typed_AddProduction `{Program} (strict : bool) (I : string)
    (P : Production) (w w' : World) :
  constructs P I →
  well_typed w →
  AddProduction.AddProduction strict I P w = Done () w' →
  well_typed w'.
Proof.
  intros HP Hw [Hs _]%AddProduction_done.
  unfold well_typed. rewrite Hs. apply map_Forall_insert_2; [|done].
  apply map_Forall_insert_2; [exact HP|].
  by apply well_typed_produceFunctions.
Qed.

Lemma well_typed_createObject `{Program} (I id : string) (w w' : World)
    (r : option positive) :
  well_typed w →
  Factory.createObject I id w = Done r w' →
  well_typed w'.
Proof.
  intros Hw Hrun. unfold well_typed.
  destruct (Factory.produceFunctions I w !! id) as [f|] eqn:Hf.
  - rewrite (createObject_hit _ _ _ _ Hf) in Hrun. unfold call in Hrun.
    destruct f as [|a]; [done|]. destruct (text a (heap w)).
    by injection Hrun as _ <-.
  - rewrite (createObject_miss _ _ _ Hf) in Hrun. by injection Hrun as _ <-.
Qed.

Lemma well_typed_no_null `{Program} (I id : string) (w : World) :
  well_typed w →
  Factory.produceFunctions I w !! id ≠ Some nullfn.
Proof.
  intros Hw Hf.
  exact (map_Forall_lookup_1 _ _ _ _ (well_typed_produceFunctions I w Hw) Hf).
Qed.

(** ** The scenario, run *)

Example Shapes_registered_reached :
  (AddProduction.AddProduction false "Shape" Shapes.Circle;;
   AddProduction.AddProduction false "Shape" Shapes.Square) initial
  = Done () Shapes.registered.
Proof. vm_compute. reflexivity. Qed.

Example Shapes_lookup_circle :
  Factory.createObject "Shape" "circle" Shapes.registered
  = Done (Some 1%positive) (set_heap {[ 1%positive := "Circle" ]} Shapes.registered).
Proof. vm_compute. reflexivity. Qed.

Example Shapes_lookup_triangle :
  Factory.createObject "Shape" "triangle" Shapes.registered
  = Done None Shapes.registered.
Proof. vm_compute. reflexivity. Qed.

Lemma Shapes_registered_well_typed : well_typed Shapes.registered.
Proof.
  set (w1 := Factory.update "Shape"
               (registration "Shape" Shapes.Circle initial) initial).
  apply (well_typed_AddProduction false "Shape" Shapes.Square w1);
    [reflexivity| |by vm_compute].
  apply (well_typed_AddProduction false "Shape" Shapes.Circle initial);
    [reflexivity|apply well_typed_initial|reflexivity].
Qed.

(** ** The theorems at the scenario *)

Lemma createObject_registered_witness :
  Factory.produceFunctions "Shape" Shapes.registered !! "circle" = Some (fn 1)
  ∧ Factory.createObject "Shape" "circle" Shapes.registered =
      Done (Some 1%positive)
        (set_heap {[ 1%positive := "Circle" ]} Shapes.registered)
  ∧ ∃ p : positive,
      (text 1 (heap Shapes.registered)).1 = Some p
      ∧ heap Shapes.registered !! p = None
      ∧ (text 1 (heap Shapes.registered)).2 =
          <[p := "Circle"]> (heap Shapes.registered).
Proof.
  split; [reflexivity|].
  destruct (createObject_registered "Shape" "circle" Shapes.registered 1
              eq_refl) as [Hrun Hnew].
  split.
  - rewrite Hrun. vm_compute. reflexivity.
  - apply Hnew. reflexivity.
Defined.

Lemma createObject_unregistered_witness :
  Factory.produceFunctions "Shape" Shapes.registered !! "triangle" = None
  ∧ Factory.createObject "Shape" "triangle" Shapes.registered =
      Done None Shapes.registered.
Proof.
  split; [reflexivity|].
  apply (createObject_unregistered "Shape" "triangle" Shapes.registered).
  reflexivity.
Defined.

Lemma createObject_frame_witness :
  Factory.produceFunctions "Shape" Shapes.registered !! "circle" ≠ Some nullfn
  ∧ ∃ (r : option positive) (w' : World),
      Factory.createObject "Shape" "circle" Shapes.registered = Done r w'
      ∧ statics w' = statics Shapes.registered.
Proof.
  assert (Factory.produceFunctions "Shape" Shapes.registered !! "circle"
          ≠ Some nullfn) as Hok by (vm_compute; discriminate).
  split; [exact Hok|].
  destruct (createObject_frame "Shape" "circle" Shapes.registered)
    as [Hframe Htotal].
  destruct (Htotal Hok) as (r & w' & Hrun).
  exists r, w'. split; [exact Hrun|]. exact (Hframe r w' Hrun).
Defined.

Lemma duplicate_reported_and_overwritten_witness :
  Factory.produceFunctions "Shape" Shapes.registered
    !! IProducible.typeId Shapes.Disc = Some (fn 1)
  ∧ ∃ w' : World,
      AddProduction.AddProduction false "Shape" Shapes.Disc Shapes.registered
        = Done () w'
      ∧ warningOutput w' =
          [ AddProduction.second_registration "Shape" Shapes.Disc;
            AddProduction.another_class ]
      ∧ Factory.produceFunctions "Shape" w' !! "circle" = Some (fn 4)
      ∧ Factory.createObject "Shape" "circle" w' = call (fn 4) w'.
Proof.
  split; [reflexivity|].
  exact (duplicate_reported_and_overwritten "Shape" Shapes.Disc
           Shapes.registered (fn 1) eq_refl).
Defined.

Lemma duplicate_diagnostic_by_identity_witness :
  Factory.produceFunctions "Shape" Shapes.registered
    !! IProducible.typeId Shapes.Circle = Some (fn 1)
  ∧ ∃ w' : World,
      AddProduction.AddProduction true "Shape" Shapes.Circle Shapes.registered
        = Done () w'
      ∧ warningOutput w' =
          [ AddProduction.second_registration "Shape" Shapes.Circle;
            AddProduction.repeated_same_class ].
Proof.
  split; [reflexivity|].
  destruct (duplicate_diagnostic_by_identity true "Shape" Shapes.Circle
              Shapes.registered (fn 1) eq_refl) as (w' & Hrun & Hsame & _).
  exists w'. split; [exact Hrun|]. exact (Hsame eq_refl).
Defined.

Lemma other_interface_untouched_witness :
  let w' := Factory.update "Widget"
              (registration "Widget" Shapes.Button Shapes.registered)
              Shapes.registered in
  "Widget" ≠ "Shape"
  ∧ AddProduction.AddProduction false "Widget" Shapes.Button Shapes.registered
      = Done () w'
  ∧ Factory.produceFunctions "Shape" w' =
      Factory.produceFunctions "Shape" Shapes.registered
  ∧ Factory.createObject "Shape" "button" w' = Done None w'
  ∧ well_typed w'.
Proof.
  intros w'.
  assert ("Widget" ≠ "Shape") as Hne by discriminate.
  assert (AddProduction.AddProduction false "Widget" Shapes.Button
            Shapes.registered = Done () w') as Hrun by reflexivity.
  split; [exact Hne|]. split; [exact Hrun|].
  destruct (other_interface_untouched false "Widget" "Shape" Shapes.Button
              Shapes.registered w' Hne Hrun) as (Hsame & Hmiss & Htyped).
  split; [exact Hsame|]. split; [exact (Hmiss eq_refl)|].
  apply Htyped; [reflexivity|]. exact Shapes_registered_well_typed.
Defined.

Lemma register_two_lookup_both_witness :
  let w1 := Factory.update "Shape"
              (registration "Shape" Shapes.Circle initial) initial in
  IProducible.typeId Shapes.Circle ≠ IProducible.typeId Shapes.Square
  ∧ AddProduction.AddProduction false "Shape" Shapes.Circle initial = Done () w1
  ∧ AddProduction.AddProduction false "Shape" Shapes.Square w1
      = Done () Shapes.registered
  ∧ Factory.createObject "Shape" "circle" Shapes.registered =
      call (fn 1) Shapes.registered
  ∧ Factory.createObject "Shape" "square" Shapes.registered =
      call (fn 2) Shapes.registered.
Proof.
  intros w1.
  assert (IProducible.typeId Shapes.Circle ≠ IProducible.typeId Shapes.Square)
    as Hne by discriminate.
  assert (AddProduction.AddProduction false "Shape" Shapes.Circle initial
          = Done () w1) as H1 by reflexivity.
  assert (AddProduction.AddProduction false "Shape" Shapes.Square w1
          = Done () Shapes.registered) as H2 by (vm_compute; reflexivity).
  split; [exact Hne|]. split; [exact H1|]. split; [exact H2|].
  exact (register_two_lookup_both false "Shape" Shapes.Circle Shapes.Square
           initial w1 Shapes.registered Hne H1 H2).
Defined.

Lemma only_own_key_modified_witness :
  let w' := Factory.update "Shape"
              (registration "Shape" Shapes.Disc Shapes.registered)
              (emit AddProduction.another_class
                 (emit (AddProduction.second_registration "Shape" Shapes.Disc)
                    Shapes.registered)) in
  AddProduction.AddProduction true "Shape" Shapes.Disc Shapes.registered
    = Done () w'
  ∧ "square" ≠ IProducible.typeId Shapes.Disc
  ∧ Factory.produceFunctions "Shape" w' !! "square" =
      Factory.produceFunctions "Shape" Shapes.registered !! "square".
Proof.
  intros w'.
  assert (AddProduction.AddProduction true "Shape" Shapes.Disc
            Shapes.registered = Done () w') as Hrun by (vm_compute; reflexivity).
  assert ("square" ≠ IProducible.typeId Shapes.Disc) as Hne by discriminate.
  split; [exact Hrun|]. split; [exact Hne|].
  exact (proj2 (only_own_key_modified "Shape" Shapes.Disc Shapes.registered)
           true w' Hrun "square" Hne).
Defined.

(** * Further properties *)

(** ** The tables as values *)

Lemma table_record_decl (d : string * Production) (J id : string)
    (s : gmap string (gmap string FnPtr)) :
  table J (record_decl d s) !! id =
    if decide (decl_key d = (J, id))
    then Some (fn (IProducible.createObject d.2))
    else table J s !! id.
Proof.
  destruct d as [I P]. unfold record_decl, decl_key, table. cbn.
  destruct (decide (I = J)) as [->|HIJ].
  - rewrite lookup_insert_eq. cbn.
    destruct (decide (IProducible.typeId P = id)) as [->|Hid].
    + rewrite lookup_insert_eq. by rewrite decide_True.
    + rewrite lookup_insert_ne by done. rewrite decide_False; [done|congruence].
  - rewrite lookup_insert_ne by done. rewrite decide_False; [done|congruence].
Qed.

Lemma register_all_cons (d : string * Production)
    (decls : list (string * Production)) (s : gmap string (gmap string FnPtr)) :
  register_all (d :: decls) s = register_all decls (record_decl d s).
Proof. reflexivity. Qed.

Lemma register_all_app (before after : list (string * Production))
    (s : gmap string (gmap string FnPtr)) :
  register_all (before ++ after) s = register_all after (register_all before s).
Proof. apply foldl_app. Qed.

Lemma table_register_all_frame (decls : list (string * Production))
    (J id : string) (s : gmap string (gmap string FnPtr)) :
  (J, id) ∉ decl_key <$> decls →
  table J (register_all decls s) !! id = table J s !! id.
Proof.
  revert s. induction decls as [|d decls IH]; intros s Hnot; [done|].
  rewrite fmap_cons, not_elem_of_cons in Hnot. destruct Hnot as [Hd Hrest].
  rewrite register_all_cons, IH by done. rewrite table_record_decl.
  by rewrite decide_False.
Qed.

Lemma table_register_all_last (before after : list (string * Production))
    (d : string * Production) (s : gmap string (gmap string FnPtr)) :
  decl_key d ∉ decl_key <$> after →
  table d.1 (register_all (before ++ d :: after) s) !! IProducible.typeId d.2
    = Some (fn (IProducible.createObject d.2)).
Proof.
  intros Hlater. rewrite register_all_app, register_all_cons.
  rewrite table_register_all_frame by done.
  rewrite table_record_decl. by rewrite decide_True.
Qed.

Lemma table_register_all_is_Some (decls : list (string * Production))
    (J id : string) (s : gmap string (gmap string FnPtr)) :
  is_Some (table J s !! id) →
  is_Some (table J (register_all decls s) !! id).
Proof.
  revert s. induction decls as [|d decls IH]; intros s Hs; [done|].
  rewrite register_all_cons. apply IH. rewrite table_record_decl.
  by case_decide.
Qed.

Lemma record_decl_commute (d1 d2 : string * Production)
    (s : gmap string (gmap string FnPtr)) :
  decl_key d1 ≠ decl_key d2 →
  record_decl d1 (record_decl d2 s) = record_decl d2 (record_decl d1 s).
Proof.
  destruct d1 as [I1 P1], d2 as [I2 P2]. unfold decl_key, record_decl, table.
  cbn. intros Hne. destruct (decide (I1 = I2)) as [->|HI].
  - rewrite !lookup_insert_eq, !insert_insert_eq. cbn.
    f_equal. apply insert_insert_ne. congruence.
  - rewrite !lookup_insert_ne by done. by apply insert_insert_ne.
Qed.

Lemma register_all_Permutation (decls decls' : list (string * Production)) :
  decls ≡ₚ decls' →
  NoDup (decl_key <$> decls) →
  ∀ s, register_all decls s = register_all decls' s.
Proof.
  induction 1 as [|d l l' Hperm IH|d1 d2 l|l l' l'' H1 IH1 H2 IH2];
    intros Hnodup s.
  - done.
  - rewrite !register_all_cons. apply IH. rewrite fmap_cons in Hnodup.
    by apply NoDup_cons in Hnodup as [_ ?].
  - rewrite !register_all_cons. f_equal. symmetry. apply record_decl_commute.
    rewrite !fmap_cons in Hnodup. apply NoDup_cons in Hnodup as [Hin _].
    rewrite not_elem_of_cons in Hin. by destruct Hin.
  - rewrite IH1 by done. apply IH2. by rewrite <- H1.
Qed.

(** ** Static initialisation, step by step *)

Lemma produceFunctions_table (I : string) (w : World) :
  Factory.produceFunctions I w = table I (statics w).
Proof. reflexivity. Qed.

Lemma static_initialization_cons (strict : bool) (d : string * Production)
    (rest : list (string * Production)) (w : World) :
  static_initialization strict (d :: rest) w =
    match AddProduction.AddProduction strict d.1 d.2 w with
    | Done _ w1 => static_initialization strict rest w1
    | Aborted => Aborted
    end.
Proof. reflexivity. Qed.

Lemma AddProduction_done_record (strict : bool) (d : string * Production)
    (w w' : World) :
  AddProduction.AddProduction strict d.1 d.2 w = Done () w' →
  statics w' = record_decl d (statics w) ∧ heap w' = heap w.
Proof. apply AddProduction_done. Qed.

Lemma static_initialization_done (strict : bool)
    (decls : list (string * Production)) (w w' : World) :
  static_initialization strict decls w = Done () w' →
  statics w' = register_all decls (statics w) ∧ heap w' = heap w.
Proof.
  revert w. induction decls as [|d decls IH]; intros w.
  - by intros [= <-].
  - rewrite static_initialization_cons.
    destruct (AddProduction.AddProduction strict d.1 d.2 w) as [[] w1|] eqn:H1;
      [|done].
    intros [Hs Hh]%IH. apply AddProduction_done_record in H1 as [Hs1 Hh1].
    rewrite register_all_cons. by rewrite Hs, Hh, Hs1, Hh1.
Qed.

Lemma static_initialization_total (decls : list (string * Production))
    (w : World) :
  ∃ w' : World, static_initialization false decls w = Done () w'.
Proof.
  revert w. induction decls as [|d decls IH]; intros w; [by eexists|].
  rewrite static_initialization_cons.
  destruct (AddProduction_total d.1 d.2 w) as [w1 ->]. apply IH.
Qed.

(** With identifiers that are new and pairwise different, nothing is
    reported: only the tables change. *)
Lemma static_initialization_silent (decls : list (string * Production))
    (w : World) :
  NoDup (decl_key <$> decls) →
  Forall (λ d, Factory.produceFunctions d.1 w !! IProducible.typeId d.2 = None)
    decls →
  static_initialization false decls w =
    Done () (set_statics (register_all decls (statics w)) w).
Proof.
  revert w. induction decls as [|d decls IH]; intros w Hnodup Hnew.
  - by destruct w.
  - rewrite fmap_cons in Hnodup. apply NoDup_cons in Hnodup as [Hd Hnodup].
    apply Forall_cons in Hnew as [Hnew_d Hnew].
    rewrite static_initialization_cons, AddProduction_first by done.
    rewrite IH; [done|done|].
    apply Forall_forall. intros d' Hd'.
    rewrite Forall_forall in Hnew. specialize (Hnew d' Hd').
    rewrite produceFunctions_table in Hnew |- *.
    change (statics (Factory.update d.1 (registration d.1 d.2 w) w))
      with (record_decl d (statics w)).
    rewrite table_record_decl, decide_False; [done|].
    intros Heq. apply Hd. rewrite Heq. apply list_elem_of_fmap. by exists d'.
Qed.

(** With assertions compiled in, a constructor that completes found its
    identifier in the table, so the identifiers of every table are the same
    afterwards. *)
Lemma AddProduction_strict_dom (I J : string) (P : Production) (w w' : World) :
  AddProduction.AddProduction true I P w = Done () w' →
  dom (Factory.produceFunctions J w') = dom (Factory.produceFunctions J w).
Proof.
  intros Hrun.
  destruct (Factory.produceFunctions I w !! IProducible.typeId P) as [f|] eqn:Hf;
    [|by rewrite AddProduction_first_strict in Hrun].
  destruct (decide (I = J)) as [<-|HIJ].
  - rewrite (produceFunctions_done_same _ _ _ _ _ Hrun). unfold registration.
    rewrite dom_insert_L. apply (elem_of_dom_2 (D := gset string)) in Hf.
    apply subseteq_union_1_L. by apply singleton_subseteq_l.
  - by rewrite (produceFunctions_done_other _ _ _ _ _ _ HIJ Hrun).
Qed.

(** A lookup completes unless the table holds a null pointer, and then
    changes the object store at most. *)
Lemma createObject_completes `{Program} (I id : string) (w : World) :
  Factory.produceFunctions I w !! id ≠ Some nullfn →
  ∃ (r : option positive) (h : gmap positive string),
    Factory.createObject I id w = Done r (set_heap h w).
Proof.
  intros Hok.
  destruct (Factory.produceFunctions I w !! id) as [f|] eqn:Hf.
  - rewrite (createObject_hit _ _ _ _ Hf). unfold call.
    destruct f as [|a]; [done|]. destruct (text a (heap w)) as [r h]. eauto.
  - rewrite (createObject_miss _ _ _ Hf). exists None, (heap w). by destruct w.
Qed.

Lemma well_typed_static_initialization `{Program} (strict : bool)
    (decls : list (string * Production)) (w w' : World) :
  Forall (λ d, constructs d.2 d.1) decls →
  well_typed w →
  static_initialization strict decls w = Done () w' →
  well_typed w'.
Proof.
  revert w. induction decls as [|d decls IH]; intros w Hdecls Hw.
  - by intros [= <-].
  - apply Forall_cons in Hdecls as [Hd Hdecls].
    rewrite static_initialization_cons.
    destruct (AddProduction.AddProduction strict d.1 d.2 w) as [[] w1|] eqn:H1;
      [|done].
    apply IH; [done|]. by apply (well_typed_AddProduction strict d.1 d.2 w).
Qed.

(** ** What a program sees after static initialisation *)

Section AfterInitialization.
Context `{Program}.

(** X1: when static initialisation completes, a declaration that no later
    declaration repeats (same factory, same identifier) is the one that
    answers: [AbstractFactory::createObject] with its identifier calls its
    [createObject], whatever was declared before it. *)
Theorem static_initialization_last_declaration_wins (strict : bool)
    (before after : list (string * Production)) (d : string * Production)
    (w w' : World) :
  decl_key d ∉ decl_key <$> after →
  static_initialization strict (before ++ d :: after) w = Done () w' →
  AbstractFactory.createObject d.1 (IProducible.typeId d.2) w' =
    call (fn (IProducible.createObject d.2)) w'.
Proof.
  intros Hlater [Hs _]%static_initialization_done.
  unfold AbstractFactory.createObject. apply createObject_hit.
  rewrite produceFunctions_table, Hs. by apply table_register_all_last.
Qed.

(** X2: static initialisation that completes leaves every entry that none
    of the declarations names as it was; an identifier that was not
    registered and is not declared is answered with the null pointer. *)
Theorem static_initialization_frame (strict : bool)
    (decls : list (string * Production)) (I id : string) (w w' : World) :
  (I, id) ∉ decl_key <$> decls →
  static_initialization strict decls w = Done () w' →
  Factory.produceFunctions I w' !! id = Factory.produceFunctions I w !! id
  ∧ (Factory.produceFunctions I w !! id = None →
     AbstractFactory.createObject I id w' = Done None w').
Proof.
  intros Hnot [Hs _]%static_initialization_done.
  assert (Factory.produceFunctions I w' !! id
          = Factory.produceFunctions I w !! id) as Hsame.
  { rewrite !produceFunctions_table, Hs. by apply table_register_all_frame. }
  split; [done|]. intros Hmiss.
  unfold AbstractFactory.createObject. apply createObject_miss.
  by rewrite Hsame.
Qed.

(** X9: after static initialisation from well-typed tables, of
    declarations whose classes return the interface of their factory, no
    lookup stops the process: [AbstractFactory::createObject] completes for
    every interface and identifier, and changes the object store at most. *)
Theorem lookup_completes_after_initialization (strict : bool)
    (decls : list (string * Production)) (w w' : World) :
  Forall (λ d, constructs d.2 d.1) decls →
  well_typed w →
  static_initialization strict decls w = Done () w' →
  ∀ I id : string,
    ∃ (r : option positive) (h : gmap positive string),
      AbstractFactory.createObject I id w' = Done r (set_heap h w').
Proof.
  intros Hdecls Hw Hrun I id. unfold AbstractFactory.createObject.
  apply createObject_completes, well_typed_no_null.
  by apply (well_typed_static_initialization strict decls w).
Qed.

(** X8: two successive lookups of an identifier whose class defines
    [createObject] with [FACTORY_PRODUCTION_CREATE_OBJECT] return two
    different objects of that class, both alive afterwards, and every object
    that existed before is still there. *)
Theorem createObject_twice_distinct_objects (I id : string) (w : World)
    (a : positive) (PRODUCTION : string) :
  Factory.produceFunctions I w !! id = Some (fn a) →
  text a = FACTORY_PRODUCTION_CREATE_OBJECT PRODUCTION →
  ∃ (p1 p2 : positive) (w1 w2 : World),
    Factory.createObject I id w = Done (Some p1) w1
    ∧ Factory.createObject I id w1 = Done (Some p2) w2
    ∧ p1 ≠ p2
    ∧ heap w2 !! p1 = Some PRODUCTION
    ∧ heap w2 !! p2 = Some PRODUCTION
    ∧ heap w ⊆ heap w2.
Proof.
  intros Hf Htext.
  set (p1 := fresh (dom (heap w))).
  set (h1 := <[p1 := PRODUCTION]> (heap w)).
  set (p2 := fresh (dom h1)).
  assert (heap w !! p1 = None) as Hp1 by apply not_elem_of_dom, is_fresh.
  assert (h1 !! p2 = None) as Hp2 by apply not_elem_of_dom, is_fresh.
  assert (p1 ≠ p2) as Hne.
  { intros Heq. rewrite <- Heq in Hp2. unfold h1 in Hp2.
    by rewrite lookup_insert_eq in Hp2. }
  exists p1, p2, (set_heap h1 w), (set_heap (<[p2 := PRODUCTION]> h1) w).
  split_and!.
  - rewrite (createObject_hit _ _ _ _ Hf). unfold call. by rewrite Htext.
  - rewrite (createObject_hit I id (set_heap h1 w) (fn a))
      by (by rewrite produceFunctions_set_heap).
    unfold call. by rewrite Htext.
  - done.
  - cbn. rewrite lookup_insert_ne by done. apply lookup_insert_eq.
  - cbn. apply lookup_insert_eq.
  - cbn. etrans; [by apply (insert_subseteq (heap w) p1 PRODUCTION)|].
    by apply insert_subseteq.
Qed.

End AfterInitialization.

(** X3: the order of construction does not matter when the declarations
    name pairwise different entries, none of them registered yet: every
    order completes without a diagnostic, in the same final state, with the
    object store untouched. *)
Theorem static_initialization_order_irrelevant
    (decls decls' : list (string * Production)) (w : World) :
  decls ≡ₚ decls' →
  NoDup (decl_key <$> decls) →
  Forall (λ d, Factory.produceFunctions d.1 w !! IProducible.typeId d.2 = None)
    decls →
  static_initialization false decls' w = static_initialization false decls w
  ∧ ∃ w' : World,
      static_initialization false decls w = Done () w'
      ∧ warningOutput w' = warningOutput w
      ∧ heap w' = heap w.
Proof.
  intros Hperm Hnodup Hnew.
  rewrite (static_initialization_silent decls w Hnodup Hnew). split; [|by eauto].
  rewrite static_initialization_silent.
  - by rewrite (register_all_Permutation decls decls' Hperm Hnodup).
  - by rewrite <- Hperm.
  - by rewrite <- Hperm.
Qed.

(** X4: when two classes share an identifier in one factory, the order of
    construction decides: the class constructed second is the one the table
    holds, so the two orders end with different tables. *)
Theorem shared_identifier_order_decides (I : string) (P Q : Production)
    (w : World) :
  IProducible.typeId P = IProducible.typeId Q →
  IProducible.createObject P ≠ IProducible.createObject Q →
  ∃ w1 w2 : World,
    static_initialization false [(I, P); (I, Q)] w = Done () w1
    ∧ static_initialization false [(I, Q); (I, P)] w = Done () w2
    ∧ Factory.produceFunctions I w1 !! IProducible.typeId P =
        Some (fn (IProducible.createObject Q))
    ∧ Factory.produceFunctions I w2 !! IProducible.typeId P =
        Some (fn (IProducible.createObject P))
    ∧ statics w1 ≠ statics w2.
Proof.
  intros Hid Hfn.
  destruct (static_initialization_total [(I, P); (I, Q)] w) as [w1 H1].
  destruct (static_initialization_total [(I, Q); (I, P)] w) as [w2 H2].
  exists w1, w2.
  pose proof (static_initialization_done _ _ _ _ H1) as [Hs1 _].
  pose proof (static_initialization_done _ _ _ _ H2) as [Hs2 _].
  assert (Factory.produceFunctions I w1 !! IProducible.typeId P
          = Some (fn (IProducible.createObject Q))) as Hw1.
  { rewrite produceFunctions_table, Hs1, Hid.
    apply (table_register_all_last [(I, P)] [] (I, Q)). cbn. apply not_elem_of_nil. }
  assert (Factory.produceFunctions I w2 !! IProducible.typeId P
          = Some (fn (IProducible.createObject P))) as Hw2.
  { rewrite produceFunctions_table, Hs2.
    apply (table_register_all_last [(I, Q)] [] (I, P)). cbn. apply not_elem_of_nil. }
  split_and!; [done..|].
  intros Heq. rewrite !produceFunctions_table in Hw1, Hw2.
  rewrite Heq, Hw2 in Hw1. congruence.
Qed.

(** X5: a constructor of [AddProduction] that completes writes to
    [warningOutput] exactly when its identifier was already registered: a
    first registration is silent, a duplicate never is. *)
Theorem diagnostic_iff_duplicate (strict : bool) (I : string) (P : Production)
    (w w' : World) :
  AddProduction.AddProduction strict I P w = Done () w' →
  (warningOutput w' = warningOutput w
   ↔ Factory.produceFunctions I w !! IProducible.typeId P = None).
Proof.
  destruct (Factory.produceFunctions I w !! IProducible.typeId P) as [f|] eqn:Hf.
  - rewrite (AddProduction_duplicate _ _ _ _ _ Hf). intros [= <-]. cbn.
    split; [|done]. intros Heq%(f_equal length).
    rewrite !length_app in Heq. cbn in Heq. lia.
  - destruct strict.
    + by rewrite AddProduction_first_strict.
    + rewrite AddProduction_first by done. by intros [= <-].
Qed.

(** X10: constructing [AddProduction< I, P >] once more, with or without
    assertions, after it has completed once, completes again and leaves the
    tables and the object store as they are; it reports "Repeated
    registration of the same class". *)
Theorem repeated_registration_keeps_tables (strict strict' : bool) (I : string)
    (P : Production) (w w1 : World) :
  AddProduction.AddProduction strict I P w = Done () w1 →
  ∃ w2 : World,
    AddProduction.AddProduction strict' I P w1 = Done () w2
    ∧ statics w2 = statics w1
    ∧ heap w2 = heap w1
    ∧ warningOutput w2 =
        warningOutput w1 ++ [AddProduction.second_registration I P;
                             AddProduction.repeated_same_class].
Proof.
  intros Hrun.
  pose proof (produceFunctions_done_same _ _ _ _ _ Hrun) as Htable.
  destruct (AddProduction_done _ _ _ _ _ Hrun) as [Hs _].
  assert (Factory.produceFunctions I w1 !! IProducible.typeId P
          = Some (fn (IProducible.createObject P))) as Hf.
  { rewrite Htable. apply lookup_insert_eq. }
  eexists. split; [by apply AddProduction_duplicate|]. split_and!.
  - cbn. unfold registration. rewrite (insert_id _ _ _ Hf).
    apply insert_id. rewrite Hs, lookup_insert_eq. by rewrite Htable.
  - done.
  - cbn. rewrite <- app_assoc. unfold verdict. by rewrite decide_True.
Qed.

(** X11: nothing is ever unregistered: an identifier registered in a
    factory before static initialisation is still registered, in the same
    factory, when it completes. *)
Theorem registered_identifiers_persist (strict : bool)
    (decls : list (string * Production)) (J id : string) (w w' : World) :
  static_initialization strict decls w = Done () w' →
  is_Some (Factory.produceFunctions J w !! id) →
  is_Some (Factory.produceFunctions J w' !! id).
Proof.
  intros [Hs _]%static_initialization_done. rewrite !produceFunctions_table, Hs.
  apply table_register_all_is_Some.
Qed.

(** ** With assertions compiled in *)

Lemma AddProduction_strict_None_iff (I J : string) (P : Production)
    (id : string) (w w' : World) :
  AddProduction.AddProduction true I P w = Done () w' →
  Factory.produceFunctions J w' !! id = None
  ↔ Factory.produceFunctions J w !! id = None.
Proof.
  intros Hrun. rewrite <- !(not_elem_of_dom (D := gset string)).
  by rewrite (AddProduction_strict_dom _ J _ _ _ Hrun).
Qed.

(** X6: with assertions compiled in, static initialisation that completes
    has added no identifier to any factory: every table has the identifiers
    it had before. *)
Theorem strict_initialization_adds_no_identifier
    (decls : list (string * Production)) (J : string) (w w' : World) :
  static_initialization true decls w = Done () w' →
  dom (Factory.produceFunctions J w') = dom (Factory.produceFunctions J w).
Proof.
  revert w. induction decls as [|d decls IH]; intros w.
  - by intros [= <-].
  - rewrite static_initialization_cons.
    destruct (AddProduction.AddProduction true d.1 d.2 w) as [[] w1|] eqn:H1;
      [|done].
    intros Hrest%IH. rewrite Hrest. by apply (AddProduction_strict_dom d.1 J d.2).
Qed.

(** X7: with assertions compiled in, static initialisation stops the
    process exactly when some declaration names an identifier that its
    factory does not hold at the start. *)
Theorem strict_initialization_aborts_iff (decls : list (string * Production))
    (w : World) :
  static_initialization true decls w = Aborted
  ↔ Exists (λ d, Factory.produceFunctions d.1 w !! IProducible.typeId d.2 = None)
      decls.
Proof.
  revert w. induction decls as [|d decls IH]; intros w.
  - split; [done|]. by intros ?%Exists_nil.
  - rewrite static_initialization_cons, Exists_cons.
    destruct (Factory.produceFunctions d.1 w !! IProducible.typeId d.2)
      as [f|] eqn:Hf.
    + pose proof (AddProduction_duplicate true _ _ _ _ Hf) as Hrun.
      rewrite Hrun, IH. split.
      * intros Hex. right. eapply Exists_impl; [exact Hex|]. intros d' Hd'. cbn in Hd'.
        by apply (AddProduction_strict_None_iff _ _ _ _ _ _ Hrun).
      * intros [?|Hex]; [done|]. eapply Exists_impl; [exact Hex|]. intros d' Hd'. cbn.
        by apply (AddProduction_strict_None_iff _ _ _ _ _ _ Hrun).
    + rewrite AddProduction_first_strict by done. split; [by left|done].
Qed.

(** ** The further properties at the scenario *)

Ltac not_declared :=
  cbn; repeat (apply not_elem_of_cons; split; [discriminate|]);
  apply not_elem_of_nil.

Ltac all_declared :=
  repeat first [apply Forall_nil_2 | apply Forall_cons_2; [reflexivity|]].

Lemma static_initialization_last_declaration_wins_witness :
  ∃ w' : World,
    (decl_key ("Shape", Shapes.Disc) ∉ decl_key <$> [("Shape", Shapes.Square)])
    ∧ static_initialization false
        ([("Shape", Shapes.Circle)]
           ++ ("Shape", Shapes.Disc) :: [("Shape", Shapes.Square)]) initial
      = Done () w'
    ∧ AbstractFactory.createObject "Shape" "circle" w' = call (fn 4) w'.
Proof.
  eexists. split; [not_declared|]. split; [reflexivity|].
  apply (static_initialization_last_declaration_wins false
           [("Shape", Shapes.Circle)] [("Shape", Shapes.Square)]
           ("Shape", Shapes.Disc) initial);
    [not_declared|reflexivity].
Defined.

Lemma static_initialization_frame_witness :
  (("Shape", "triangle")
     ∉ decl_key <$> [("Shape", Shapes.Circle); ("Shape", Shapes.Square)])
  ∧ static_initialization false
      [("Shape", Shapes.Circle); ("Shape", Shapes.Square)] initial
    = Done () Shapes.registered
  ∧ Factory.produceFunctions "Shape" Shapes.registered !! "triangle" =
      Factory.produceFunctions "Shape" initial !! "triangle"
  ∧ AbstractFactory.createObject "Shape" "triangle" Shapes.registered =
      Done None Shapes.registered.
Proof.
  assert (("Shape", "triangle")
            ∉ decl_key <$> [("Shape", Shapes.Circle); ("Shape", Shapes.Square)])
    as Hnot by not_declared.
  assert (static_initialization false
            [("Shape", Shapes.Circle); ("Shape", Shapes.Square)] initial
          = Done () Shapes.registered) as Hrun by (vm_compute; reflexivity).
  split; [exact Hnot|]. split; [exact Hrun|].
  destruct (static_initialization_frame false _ "Shape" "triangle" initial
              Shapes.registered Hnot Hrun) as [Hsame Hmiss].
  split; [exact Hsame|]. apply Hmiss. reflexivity.
Defined.

Lemma lookup_completes_after_initialization_witness :
  ∃ w' : World,
    Forall (λ d, constructs d.2 d.1)
      [("Shape", Shapes.Circle); ("Widget", Shapes.Button)]
    ∧ well_typed initial
    ∧ static_initialization false
        [("Shape", Shapes.Circle); ("Widget", Shapes.Button)] initial
      = Done () w'
    ∧ ∀ I id : string,
        ∃ (r : option positive) (h : gmap positive string),
          AbstractFactory.createObject I id w' = Done r (set_heap h w').
Proof.
  assert (Forall (λ d, constructs d.2 d.1)
            [("Shape", Shapes.Circle); ("Widget", Shapes.Button)])
    as Hdecls by all_declared.
  eexists. split; [exact Hdecls|]. split; [exact well_typed_initial|].
  split; [reflexivity|].
  apply (lookup_completes_after_initialization false
           [("Shape", Shapes.Circle); ("Widget", Shapes.Button)] initial);
    [exact Hdecls|exact well_typed_initial|reflexivity].
Defined.

Lemma createObject_twice_distinct_objects_witness :
  Factory.produceFunctions "Shape" Shapes.registered !! "circle" = Some (fn 1)
  ∧ text 1 = FACTORY_PRODUCTION_CREATE_OBJECT "Circle"
  ∧ ∃ (p1 p2 : positive) (w1 w2 : World),
      Factory.createObject "Shape" "circle" Shapes.registered
        = Done (Some p1) w1
      ∧ Factory.createObject "Shape" "circle" w1 = Done (Some p2) w2
      ∧ p1 ≠ p2
      ∧ heap w2 !! p1 = Some "Circle"
      ∧ heap w2 !! p2 = Some "Circle"
      ∧ heap Shapes.registered ⊆ heap w2.
Proof.
  split; [reflexivity|]. split; [reflexivity|].
  exact (createObject_twice_distinct_objects "Shape" "circle" Shapes.registered
           1 "Circle" eq_refl eq_refl).
Defined.

Lemma static_initialization_order_irrelevant_witness :
  let decls := [("Shape", Shapes.Circle); ("Shape", Shapes.Square);
                ("Widget", Shapes.Button)] in
  let decls' := [("Shape", Shapes.Square); ("Shape", Shapes.Circle);
                 ("Widget", Shapes.Button)] in
  decls ≡ₚ decls'
  ∧ NoDup (decl_key <$> decls)
  ∧ Forall (λ d, Factory.produceFunctions d.1 initial
                   !! IProducible.typeId d.2 = None) decls
  ∧ static_initialization false decls' initial
    = static_initialization false decls initial
  ∧ ∃ w' : World,
      static_initialization false decls initial = Done () w'
      ∧ warningOutput w' = warningOutput initial
      ∧ heap w' = heap initial.
Proof.
  intros decls decls'.
  assert (decls ≡ₚ decls') as Hperm by apply perm_swap.
  assert (NoDup (decl_key <$> decls)) as Hnodup.
  { cbn. repeat (apply NoDup_cons_2; [not_declared|]). apply NoDup_nil_2. }
  assert (Forall (λ d, Factory.produceFunctions d.1 initial
                         !! IProducible.typeId d.2 = None) decls)
    as Hnew by all_declared.
  split; [exact Hperm|]. split; [exact Hnodup|]. split; [exact Hnew|].
  exact (static_initialization_order_irrelevant decls decls' initial
           Hperm Hnodup Hnew).
Defined.

Lemma shared_identifier_order_decides_witness :
  IProducible.typeId Shapes.Circle = IProducible.typeId Shapes.Disc
  ∧ IProducible.createObject Shapes.Circle
    ≠ IProducible.createObject Shapes.Disc
  ∧ ∃ w1 w2 : World,
      static_initialization false
        [("Shape", Shapes.Circle); ("Shape", Shapes.Disc)] initial = Done () w1
      ∧ static_initialization false
          [("Shape", Shapes.Disc); ("Shape", Shapes.Circle)] initial
        = Done () w2
      ∧ Factory.produceFunctions "Shape" w1 !! "circle" = Some (fn 4)
      ∧ Factory.produceFunctions "Shape" w2 !! "circle" = Some (fn 1)
      ∧ statics w1 ≠ statics w2.
Proof.
  assert (IProducible.createObject Shapes.Circle
          ≠ IProducible.createObject Shapes.Disc) as Hfn by discriminate.
  split; [reflexivity|]. split; [exact Hfn|].
  exact (shared_identifier_order_decides "Shape" Shapes.Circle Shapes.Disc
           initial eq_refl Hfn).
Defined.

Lemma diagnostic_iff_duplicate_witness :
  let w1 := Factory.update "Shape"
              (registration "Shape" Shapes.Circle initial) initial in
  AddProduction.AddProduction false "Shape" Shapes.Circle initial = Done () w1
  ∧ (warningOutput w1 = warningOutput initial
     ↔ Factory.produceFunctions "Shape" initial !! "circle" = None).
Proof.
  intros w1.
  assert (AddProduction.AddProduction false "Shape" Shapes.Circle initial
          = Done () w1) as Hrun by reflexivity.
  split; [exact Hrun|].
  exact (diagnostic_iff_duplicate false "Shape" Shapes.Circle initial w1 Hrun).
Defined.

Lemma repeated_registration_keeps_tables_witness :
  let w1 := Factory.update "Shape"
              (registration "Shape" Shapes.Circle initial) initial in
  AddProduction.AddProduction false "Shape" Shapes.Circle initial = Done () w1
  ∧ ∃ w2 : World,
      AddProduction.AddProduction true "Shape" Shapes.Circle w1 = Done () w2
      ∧ statics w2 = statics w1
      ∧ heap w2 = heap w1
      ∧ warningOutput w2 =
          warningOutput w1
            ++ [AddProduction.second_registration "Shape" Shapes.Circle;
                AddProduction.repeated_same_class].
Proof.
  intros w1.
  assert (AddProduction.AddProduction false "Shape" Shapes.Circle initial
          = Done () w1) as Hrun by reflexivity.
  split; [exact Hrun|].
  exact (repeated_registration_keeps_tables false true "Shape" Shapes.Circle
           initial w1 Hrun).
Defined.

Lemma registered_identifiers_persist_witness :
  ∃ w' : World,
    static_initialization true [("Shape", Shapes.Disc)] Shapes.registered
      = Done () w'
    ∧ is_Some (Factory.produceFunctions "Shape" Shapes.registered !! "square")
    ∧ is_Some (Factory.produceFunctions "Shape" w' !! "square").
Proof.
  assert (is_Some (Factory.produceFunctions "Shape" Shapes.registered
                     !! "square")) as Hreg by (by exists (fn 2)).
  eexists. split; [vm_compute; reflexivity|]. split; [exact Hreg|].
  apply (registered_identifiers_persist true [("Shape", Shapes.Disc)]
           "Shape" "square" Shapes.registered); [vm_compute; reflexivity|exact Hreg].
Defined.

Lemma strict_initialization_adds_no_identifier_witness :
  ∃ w' : World,
    static_initialization true
      [("Shape", Shapes.Circle); ("Shape", Shapes.Disc)] Shapes.registered
      = Done () w'
    ∧ dom (Factory.produceFunctions "Shape" w') =
        dom (Factory.produceFunctions "Shape" Shapes.registered).
Proof.
  eexists. split; [vm_compute; reflexivity|].
  apply (strict_initialization_adds_no_identifier
           [("Shape", Shapes.Circle); ("Shape", Shapes.Disc)] "Shape"
           Shapes.registered).
  vm_compute; reflexivity.
Defined.
